(* ===== verification/_CoqProject ===== *)
-Q . S2P
Prelude.v
Workflow.v
Credentials.v
NodeDescription.v
Fixtures.v
ExecuteItem.v
Contract.v
Execute.v
