(* ===== verification/Prelude.v ===== *)
(** * A verification development of the Receiptli n8n community node

    The repository is a plugin for the n8n workflow host.  It has two
    source files and no state of its own:

    - [src/credentials/ReceiptliApi.credentials.ts] declares the credential
      type [ReceiptliApi]: two fields, [apiKey] (a password string, default
      [''], required) and [baseUrl] (default ['http://localhost:3000'],
      required).  The host stores the values a user enters and hands them to
      the node at execution time.
    - [src/nodes/Receiptli/Receiptli.node.ts] declares the node [Receiptli]:
      its [description] (three parameters [binaryPropertyName], [schema] and
      [language], and the credential it needs) and its [execute] method.
      [execute] reads the input items, fetches the credentials once, then for
      each item in order reads the three parameters, checks that the item
      carries the named binary attachment (throwing otherwise), fetches the
      attachment's bytes, POSTs them with the schema and the language to
      [{baseUrl}/api/v1/extract-text] with the header
      [Authorization: Bearer {apiKey}], and pushes [{ json: response }].
      It returns the collected items as the single output branch.

    The two parts interact through the host: the node names the credential
    type in its description and asks the host for it by that name; the host
    answers [getNodeParameter] with the value the user set or the default
    the description declares.

    ** Files of the development (in dependency order)

    - [Prelude] (this file): the [Outcome] type of results, the small
      state-and-error monad [ST] that [execute] is written in (its own scope
      [exec_scope] with the [let*] and [let?] notations), the pointwise
      equivalence of computations with its [Proper] instance for setoid
      rewriting under binds, the JavaScript coercions the code relies on
      ([js_or] for [x || 'default'] on strings, [js_template] for [`${x}`]
      on a possibly undefined value), and the hint databases [n8n] and
      [n8n_rw] that the component files fill.
    - [Workflow]: the n8n-workflow interfaces the code uses, as records in
      Modules of their names ([INodeProperties], [ICredentialType],
      [INodeTypeDescription], [IBinaryData], [INodeExecutionData],
      [IRequestOptions]); JavaScript property access on a plain object,
      own properties and members inherited from [Object.prototype]
      ([js_get]); the errors a run can end in ([NodeError]); the log of
      host calls ([HostCall]); the host interface, the type class
      [ExecuteFunctions] standing for [IExecuteFunctions], and the host
      calls as computations of the monad [Exec] ([getInputData],
      [getCredentials], [getNodeParameter], [getBinaryDataBuffer],
      [request]).  This file models a library, not the repository.
    - [Credentials]: Module [ReceiptliApi], the credential class of
      [ReceiptliApi.credentials.ts].
    - [NodeDescription]: Module [Receiptli], the [description] field of
      [Receiptli.node.ts] and [Receiptli.getNodeParameter], the host's
      parameter resolution against it.
    - [Fixtures]: concrete hosts (the two scenarios of the specification,
      a three-item batch with a stateful service, a pair of items with an
      undeclared language, a prototype-member property name) on which the
      theorems are applied.
    - [ExecuteItem]: the loop body of [execute] ([item_binary] for the
      guard, [no_binary_message], [build_request], [execute_item]); the
      lemmas running each host call symbolically ([bind_getNodeParameter],
      [bind_getBinaryDataBuffer], [bind_request]); the theorems on the
      file options' fallbacks and on the guard passing prototype members.
    - [Contract]: the abstract contract of [execute]: a pure plan per item
      ([item_plan]), the sequential service of the plans ([serve], which
      stops at the first failure) and [execute_spec]; [execute_item_view]
      shows one pass of the loop body is one step of the contract, and the
      [serve_*] lemmas characterise successful and failed services.
    - [Execute]: [for_items] (the [for] loop) and [execute]; fuel
      sufficiency; the refinement [execute_refines_spec]; the properties of
      runs derived from it; the two scenarios of the specification,
      evaluated as [Example]s (checks on fixed inputs, not properties); the
      witnesses.

    ** The host

    The host is abstract: every theorem about [execute] holds for every
    instance of [ExecuteFunctions] (input items, credential store,
    parameter values per item, binary store, remote service).  The remote
    service answers a request as a function of the requests it has already
    received, so it may keep state; failures of the HTTP call (network,
    status, timeout, malformed JSON) are one error, as in the source.  Every
    call [execute] makes to the host is recorded in a log, so ordering
    claims are statements about the log.

    ** What the theorems show

    - Refinement (C1): [execute] from an empty log returns what
      [execute_spec] returns and makes the same requests in the same
      order.  It is proved from [execute_item_view] (one item) and
      [for_items_view] (the loop, by induction on the remaining items).
    - Results (C2, C7, C9, C12): a successful run has one output branch
      with one item per input item, the [i]-th holding the service's answer
      to item [i]'s request; the run completes when every plan is a request
      and the service accepts; the form fields and defaults; the file name
      and type are the attachment's own non-empty values and fall back
      exactly when there is none.
    - Errors (C3, C6): a missing attachment stops the run with no output
      and no request for that item or later; a failed run stopped at its
      first failing step.
    - Safety and ordering (C4, C5, C10, C11): every request's method, URL,
      header and timeout; the [i]-th request is item [i]'s; the log is one
      block of calls per item in order, credentials read once under the
      declared type's name; the guard lets prototype members through.
    - Termination (C8): the loop's fuel is never what stops it.

    ** Bounds and fuel

    [for_items] takes fuel; [execute] gives it [length items], and
    [for_items_fuel_enough] shows that every fuel at least the number of
    remaining items gives the same run, so the loop ends by its condition
    [i < items.length].  The timeout is an integer ([Z]); C4 shows it is
    within the [2^31 - 1] ms a Node.js timer accepts (a larger value would
    be clamped to 1 ms).

    ** Plan for later work

    Done: the three components of [src/] and the contract of [execute].
    Next: a [Module Type] for the host with the laws the n8n runtime
    guarantees (parameter defaults, credential lookup by type) and a
    functor over it; a model of the multipart body the request helper
    builds from [formData] with a round-trip property of its encoding;
    the [continueOnFail] behaviour the node does not implement, stated as
    a divergence; simulation of several executions sharing one stateful
    service.

    ** Not modelled

    The multipart encoding of the form body and the HTTP transport (done by
    the host's [helpers.request]), the JSON parsing of the response (the
    response is an opaque [Json] value passed through), the host's
    credential encryption and UI, and the SVG icon.  The declarative fields
    of the descriptions that the host only displays (display names, icon,
    group, version, the node's description text) are kept as data but no
    theorem is about them. *)

From stdpp Require Import base strings gmap list.

Declare Scope exec_scope.
Delimit Scope exec_scope with exec.

(** ** Results *)

(** The result of a computation that may throw: the value, or the error. *)
Inductive Outcome (E A : Type) : Type :=
| Ok (a : A)
| Err (e : E).
Arguments Ok {E A} a.
Arguments Err {E A} e.

Definition outcome_map {E A B} (f : A -> B) (o : Outcome E A) : Outcome E B :=
  match o with Ok a => Ok (f a) | Err e => Err e end.

Definition outcome_bind {E A B} (o : Outcome E A) (k : A -> Outcome E B) : Outcome E B :=
  match o with Ok a => k a | Err e => Err e end.

Notation "'let?' x := m 'in' k" := (outcome_bind m (fun x => k))
  (at level 100, x name, m at next level, k at level 200) : exec_scope.

(** The value of a result, or [d] for an error. *)
Definition ok_value {E A} (d : A) (o : Outcome E A) : A :=
  match o with Ok a => a | Err _ => d end.

Definition is_ok {E A} (o : Outcome E A) : bool :=
  match o with Ok _ => true | Err _ => false end.

(** ** The state-and-error monad

    A computation reads and extends a state [S] (for [execute], the log of
    host calls) and either returns a value or throws; a throw keeps the
    state reached so far, as an exception in JavaScript keeps the effects
    already performed. *)

Definition ST (S E A : Type) : Type := S -> Outcome E A * S.

Definition st_ret {S E A} (a : A) : ST S E A := fun s => (Ok a, s).

Definition st_throw {S E A} (e : E) : ST S E A := fun s => (Err e, s).

Definition st_bind {S E A B} (m : ST S E A) (k : A -> ST S E B) : ST S E B :=
  fun s =>
    match m s with
    | (Ok a, s') => k a s'
    | (Err e, s') => (Err e, s')
    end.

Notation "'let*' x := m 'in' k" := (st_bind m (fun x => k))
  (at level 100, x name, m at next level, k at level 200) : exec_scope.

(** ** Pointwise equivalence of computations

    Two computations are equivalent when they agree on every state.  This
    is coarser than equality of functions (which would need functional
    extensionality), and [st_bind] respects it, so equivalences are
    rewritten under binds with [setoid_rewrite]. *)

#[export] Instance st_equiv {S E A} : Equiv (ST S E A) :=
  fun m1 m2 => forall s, m1 s = m2 s.

#[export] Instance st_equiv_equivalence {S E A} : Equivalence (≡@{ST S E A}).
Proof.
  split.
  - intros m s. reflexivity.
  - intros m1 m2 H s. by rewrite H.
  - intros m1 m2 m3 H1 H2 s. by rewrite H1, H2.
Qed.

#[export] Instance st_bind_proper {S E A B} :
  Proper ((≡) ==> pointwise_relation A (≡) ==> (≡)) (@st_bind S E A B).
Proof.
  intros m1 m2 Hm k1 k2 Hk s. unfold st_bind. rewrite Hm.
  destruct (m2 s) as [[a|e] s']; [apply Hk | reflexivity].
Qed.

(** ** JavaScript coercions used by the source *)

Local Open Scope string_scope.

(** [x || d] on a string-valued [x] that may be undefined ([None]): the
    empty string and [undefined] are falsy, so both give [d]. *)
Definition js_or (x : option string) (d : string) : string :=
  match x with
  | Some s => if String.eqb s "" then d else s
  | None => d
  end.

(** [`${x}`] on a value read from an object: an absent property is
    [undefined], which a template literal prints as ["undefined"]. *)
Definition js_template (x : option string) : string :=
  match x with Some s => s | None => "undefined" end.

(** The double quote character, which the error message of the node
    contains. *)
Definition dquote : string := String (Ascii.ascii_of_nat 34) EmptyString.

(** ** Generic lemmas *)

Create HintDb n8n discriminated.
Create Rewrite HintDb n8n_rw.

Lemma js_or_nonempty (x : option string) (d : string) :
  d <> "" -> js_or x d <> "".
Proof.
  intros Hd. destruct x as [s|]; simpl; [|done].
  destruct (String.eqb_spec s ""); done.
Qed.

#[export] Hint Resolve js_or_nonempty : n8n.
#[export] Hint Extern 1 (_ <> _) => discriminate : n8n.
