(* ===== verification/Workflow.v ===== *)
(** * The n8n-workflow interfaces the node is written against

    The types the source imports from [n8n-workflow] ([INodeProperties],
    [ICredentialType], [INodeTypeDescription], [INodeExecutionData],
    [IBinaryData], the request options of [helpers.request]) as records,
    JavaScript property access on the plain object that holds an item's
    binary attachments, the calls a node makes to its host and the host
    itself, the type class [ExecuteFunctions] that stands for the
    [IExecuteFunctions] context [this] of [execute].

    This file models a library, not code of the repository: the host's
    behaviour is taken from the interfaces' contracts and kept abstract
    (every theorem of the development holds for every instance). *)

From stdpp Require Import base strings gmap list.
From S2P Require Import Prelude.

Local Open Scope string_scope.

(** ** Values *)

(** A parsed JSON value, the type of [INodeExecutionData.json] and of the
    response of a request made with [json: true]. *)
#[local] Set Warnings "-register-all".
Inductive Json : Type :=
| JNull
| JBool (b : bool)
| JNumber (n : Z)
| JString (s : string)
| JArray (xs : list Json)
| JObject (fields : list (string * Json)).

(** A file's bytes, as [getBinaryDataBuffer] returns them. *)
Definition Buffer : Type := list Byte.byte.

(** ** Declarative descriptions *)

(** The property types the descriptions of this repository use. *)
Inductive NodePropertyTypes : Type :=
| PString
| POptions.

#[export] Instance NodePropertyTypes_eq_dec : EqDecision NodePropertyTypes.
Proof. solve_decision. Defined.

Module INodePropertyOptions.
Record t : Type := mk { name : string; value : string }.
End INodePropertyOptions.

Module INodePropertyTypeOptions.
Record t : Type := mk { password : option bool; rows : option nat }.
Definition none : t := mk None None.
End INodePropertyTypeOptions.

Module INodeProperties.
Record t : Type := mk {
  displayName : string;
  name : string;
  type : NodePropertyTypes;
  default : string;
  required : bool;
  description : option string;
  typeOptions : INodePropertyTypeOptions.t;
  options : list INodePropertyOptions.t;
}.
End INodeProperties.

Module INodeCredentialDescription.
Record t : Type := mk { name : string; required : bool }.
End INodeCredentialDescription.

Module ICredentialType.
Record t : Type := mk {
  name : string;
  displayName : string;
  properties : list INodeProperties.t;
}.
End ICredentialType.

Module INodeTypeDescription.
Record t : Type := mk {
  displayName : string;
  name : string;
  icon : string;
  group : list string;
  version : nat;
  description : string;
  defaults_name : string;
  inputs : list string;
  outputs : list string;
  credentials : list INodeCredentialDescription.t;
  properties : list INodeProperties.t;
}.
End INodeTypeDescription.

(** The default a list of properties declares for the parameter [name]:
    the first property of that name, as the host resolves it. *)
Definition property_default (props : list INodeProperties.t) (name : string)
    : option string :=
  (fun ip => INodeProperties.default ip.2)
    <$> list_find (fun p => INodeProperties.name p = name) props.

(** ** Items and their binary attachments *)

Module IBinaryData.
Record t : Type := mk {
  data : string;
  mimeType : string;
  fileName : option string;
  fileExtension : option string;
  id : option string;
}.
End IBinaryData.

Module INodeExecutionData.
(** [binary] is an optional plain object from property names to
    attachments: [None] when the item has no [binary] property. *)
Record t : Type := mk {
  json : Json;
  binary : option (gmap string IBinaryData.t);
}.
End INodeExecutionData.

(** Reading [obj[k]] on a plain JavaScript object: an own property, or a
    member inherited from [Object.prototype] (a function, or the prototype
    itself for ["__proto__"]), or [undefined].  Every value found is an
    object, hence truthy. *)
Inductive JsProp : Type :=
| JsOwn (b : IBinaryData.t)
| JsInherited (member : string).

Definition object_prototype_members : list string :=
  ["constructor"; "__defineGetter__"; "__defineSetter__"; "hasOwnProperty";
   "__lookupGetter__"; "__lookupSetter__"; "isPrototypeOf";
   "propertyIsEnumerable"; "toString"; "valueOf"; "__proto__";
   "toLocaleString"].

Definition js_get (o : gmap string IBinaryData.t) (k : string) : option JsProp :=
  match o !! k with
  | Some b => Some (JsOwn b)
  | None => if decide (k ∈ object_prototype_members) then Some (JsInherited k) else None
  end.

(** [binaryData.fileName] and [binaryData.mimeType]: an inherited member
    has neither, so both read [undefined]. *)
Definition js_fileName (p : JsProp) : option string :=
  match p with JsOwn b => IBinaryData.fileName b | JsInherited _ => None end.

Definition js_mimeType (p : JsProp) : option string :=
  match p with JsOwn b => Some (IBinaryData.mimeType b) | JsInherited _ => None end.

(** ** Requests *)

Module IRequestOptions.
Record file_options : Type := mk_file_options {
  filename : string;
  contentType : string;
}.
Record form_file : Type := mk_form_file {
  value : Buffer;
  options : file_options;
}.
Record form_data : Type := mk_form_data {
  file : form_file;
  schema : string;
  language : string;
}.
Record t : Type := mk {
  method : string;
  url : string;
  headers : list (string * string);
  formData : form_data;
  json : bool;
  timeout : Z;
}.
End IRequestOptions.

(** ** The host *)

(** The errors a run of the node can end in.  [NoBinaryData] is the
    node's own [throw new Error(...)]; the others are thrown by host calls;
    [ItemUndefined] is the [TypeError] of reading a property of
    [items[i]] past the end of the input. *)
Inductive NodeError : Type :=
| CredentialsNotFound (type : string)
| ParameterNotFound (name : string)
| NoBinaryData (message : string)
| BinaryDataError (reason : string)
| RequestFailed (reason : string)
| ItemUndefined (index : nat).

(** A call of the node to its host, as recorded in the log. *)
Inductive HostCall : Type :=
| CallGetInputData
| CallGetCredentials (type : string)
| CallGetNodeParameter (name : string) (itemIndex : nat)
| CallGetBinaryDataBuffer (itemIndex : nat) (propertyName : string)
| CallRequest (options : IRequestOptions.t).

(** The requests a log records, in the order they were made. *)
Fixpoint requests_of (log : list HostCall) : list IRequestOptions.t :=
  match log with
  | [] => []
  | CallRequest o :: log' => o :: requests_of log'
  | _ :: log' => requests_of log'
  end.

(** The context [this : IExecuteFunctions] of [execute], as far as the
    node uses it: the input items, the credential store, the parameter
    values the user set (per item, after expressions are evaluated; [None]
    when the parameter is not set), the binary data store, and the remote
    service reached by [helpers.request], which answers a request as a
    function of the requests it has received before. *)
Class ExecuteFunctions : Type := {
  inputData : list INodeExecutionData.t;
  credentialStore : string -> option (gmap string string);
  parameterValue : nat -> string -> option string;
  binaryStore : nat -> string -> Outcome string Buffer;
  remote : list IRequestOptions.t -> IRequestOptions.t -> Outcome string Json;
}.

(** The monad a node's [execute] runs in: the log of host calls as state,
    [NodeError] as exceptions. *)
Definition Exec (A : Type) : Type := ST (list HostCall) NodeError A.

Definition log_call (c : HostCall) : Exec unit :=
  fun log => (Ok tt, (log ++ [c])%list).

Section HostCalls.
Context `{EF : ExecuteFunctions}.
Local Open Scope exec_scope.

Definition getInputData : Exec (list INodeExecutionData.t) :=
  let* _ := log_call CallGetInputData in st_ret inputData.

Definition getCredentials (type : string) : Exec (gmap string string) :=
  let* _ := log_call (CallGetCredentials type) in
  match credentialStore type with
  | Some c => st_ret c
  | None => st_throw (CredentialsNotFound type)
  end.

(** The value the user set, or else the default the node's properties
    declare, or else the host's "Could not get parameter" error. *)
Definition getNodeParameter (props : list INodeProperties.t) (name : string)
    (i : nat) : Exec string :=
  let* _ := log_call (CallGetNodeParameter name i) in
  match parameterValue i name with
  | Some v => st_ret v
  | None =>
      match property_default props name with
      | Some d => st_ret d
      | None => st_throw (ParameterNotFound name)
      end
  end.

Definition getBinaryDataBuffer (i : nat) (propertyName : string) : Exec Buffer :=
  let* _ := log_call (CallGetBinaryDataBuffer i propertyName) in
  match binaryStore i propertyName with
  | Ok b => st_ret b
  | Err r => st_throw (BinaryDataError r)
  end.

(** The service sees the requests already made, answers, and the call is
    logged; a failed request (network, status, timeout, unparsable body)
    rejects the promise. *)
Definition request (o : IRequestOptions.t) : Exec Json :=
  fun log =>
    match remote (requests_of log) o with
    | Ok r => (Ok r, (log ++ [CallRequest o])%list)
    | Err why => (Err (RequestFailed why), (log ++ [CallRequest o])%list)
    end.
End HostCalls.

Lemma requests_of_app (l1 l2 : list HostCall) :
  requests_of (l1 ++ l2)%list = (requests_of l1 ++ requests_of l2)%list.
Proof. induction l1 as [|[] l1 IH]; simpl; rewrite ?IH; done. Qed.

#[export] Hint Rewrite requests_of_app : n8n_rw.
