(* ===== verification/Credentials.v ===== *)
(** * The credential type [ReceiptliApi]

    [src/credentials/ReceiptliApi.credentials.ts]: the class [ReceiptliApi]
    implementing [ICredentialType], as the value of its fields.  It has no
    operation; the host builds a credential form from [properties],
    pre-filled with their defaults, and hands the stored values to the
    node by the type's [name]. *)

From stdpp Require Import base strings gmap list.
From S2P Require Import Prelude Workflow.

Local Open Scope string_scope.

Module ReceiptliApi.

Definition name : string := "ReceiptliApi".

Definition displayName : string := "Text Extractor API".

(** The [apiKey] field: a password string, required, default [''].*)
Definition apiKey_property : INodeProperties.t := {|
  INodeProperties.displayName := "API Key";
  INodeProperties.name := "apiKey";
  INodeProperties.type := PString;
  INodeProperties.default := "";
  INodeProperties.required := true;
  INodeProperties.description := None;
  INodeProperties.typeOptions := INodePropertyTypeOptions.mk (Some true) None;
  INodeProperties.options := [];
|}.

(** The [baseUrl] field: a string, required, default
    ['http://localhost:3000']. *)
Definition baseUrl_property : INodeProperties.t := {|
  INodeProperties.displayName := "Base URL";
  INodeProperties.name := "baseUrl";
  INodeProperties.type := PString;
  INodeProperties.default := "http://localhost:3000";
  INodeProperties.required := true;
  INodeProperties.description := None;
  INodeProperties.typeOptions := INodePropertyTypeOptions.none;
  INodeProperties.options := [];
|}.

Definition properties : list INodeProperties.t := [apiKey_property; baseUrl_property].

Definition credential : ICredentialType.t := {|
  ICredentialType.name := name;
  ICredentialType.displayName := displayName;
  ICredentialType.properties := properties;
|}.

End ReceiptliApi.
