(* ===== verification/NodeDescription.v ===== *)
(** * The description of the node [Receiptli]

    [src/nodes/Receiptli/Receiptli.node.ts], the field [description] of the
    class [Receiptli]: the node's identity for the host, the credential it
    requires, and its three parameters with their defaults.  The host reads
    parameter defaults from here: [Receiptli.getNodeParameter] is the
    host's [this.getNodeParameter] for this node. *)

From stdpp Require Import base strings gmap list.
From S2P Require Import Prelude Workflow Credentials.

Local Open Scope string_scope.

Module Receiptli.

Definition binaryPropertyName_property : INodeProperties.t := {|
  INodeProperties.displayName := "Binary Property Name";
  INodeProperties.name := "binaryPropertyName";
  INodeProperties.type := PString;
  INodeProperties.default := "data";
  INodeProperties.required := true;
  INodeProperties.description :=
    Some "Name of the binary property containing the uploaded file";
  INodeProperties.typeOptions := INodePropertyTypeOptions.none;
  INodeProperties.options := [];
|}.

Definition schema_property : INodeProperties.t := {|
  INodeProperties.displayName := "Schema (JSON)";
  INodeProperties.name := "schema";
  INodeProperties.type := PString;
  INodeProperties.default := "";
  INodeProperties.required := true;
  INodeProperties.description := None;
  INodeProperties.typeOptions := INodePropertyTypeOptions.mk None (Some 6);
  INodeProperties.options := [];
|}.

Definition language_options : list INodePropertyOptions.t :=
  [INodePropertyOptions.mk "English" "eng"; INodePropertyOptions.mk "Arabic" "ar"].

Definition language_property : INodeProperties.t := {|
  INodeProperties.displayName := "Language";
  INodeProperties.name := "language";
  INodeProperties.type := POptions;
  INodeProperties.default := "eng";
  INodeProperties.required := false;
  INodeProperties.description := None;
  INodeProperties.typeOptions := INodePropertyTypeOptions.none;
  INodeProperties.options := language_options;
|}.

Definition description : INodeTypeDescription.t := {|
  INodeTypeDescription.displayName := "Receiptli";
  INodeTypeDescription.name := "receiptli";
  INodeTypeDescription.icon := "file:receiptli.svg";
  INodeTypeDescription.group := ["transform"];
  INodeTypeDescription.version := 1;
  INodeTypeDescription.description :=
    "Automatically parse forms, resumes, and invoices using AI. Turn unstructured documents into structured insights — no templates required.";
  INodeTypeDescription.defaults_name := "Receiptli";
  INodeTypeDescription.inputs := ["main"];
  INodeTypeDescription.outputs := ["main"];
  INodeTypeDescription.credentials :=
    [INodeCredentialDescription.mk "ReceiptliApi" true];
  INodeTypeDescription.properties :=
    [binaryPropertyName_property; schema_property; language_property];
|}.

(** [this.getNodeParameter(name, i)] for this node: the host resolves
    unset parameters against this description's defaults. *)
Definition getNodeParameter `{ExecuteFunctions} (name : string) (i : nat)
    : Exec string :=
  Workflow.getNodeParameter (INodeTypeDescription.properties description) name i.

End Receiptli.
