(* ===== verification/Fixtures.v ===== *)
(** * Concrete hosts

    Instances of [ExecuteFunctions] on which the theorems are applied:
    the two scenarios of the specification (an invoice extracted with key
    [k1]; an item without the [data] attachment), a batch of three items
    served by a service that keeps state, two items one of which sets an
    undeclared language, and an item whose binary property name is a
    member of [Object.prototype]. *)

From stdpp Require Import base strings gmap list.
From S2P Require Import Prelude Workflow.

Local Open Scope string_scope.

(** A request with every field empty, the default of a lookup. *)
Definition empty_request : IRequestOptions.t :=
  IRequestOptions.mk "" "" []
    (IRequestOptions.mk_form_data
       (IRequestOptions.mk_form_file [] (IRequestOptions.mk_file_options "" "")) "" "")
    false 0.

Definition invoice_pdf : IBinaryData.t :=
  IBinaryData.mk "JVBERi0xLjQK" "application/pdf" (Some "invoice.pdf") (Some "pdf") None.

(** [{"total": "number"}] *)
Definition invoice_schema : string :=
  "{" +:+ dquote +:+ "total" +:+ dquote +:+ ": " +:+ dquote +:+ "number" +:+ dquote +:+ "}".

Definition invoice_bytes : Buffer := [Byte.x25; Byte.x50; Byte.x44; Byte.x46].

Definition invoice_response : Json := JObject [("total", JNumber 42)].

Definition scenario_credentials : string -> option (gmap string string) :=
  fun t => if decide (t = "ReceiptliApi")
           then Some (<["apiKey" := "k1"]> {[ "baseUrl" := "http://localhost:3000" ]})
           else None.

(** The schema and the language are set; the binary property name is
    left at its default. *)
Definition scenario_parameters : nat -> string -> option string :=
  fun _ n => if decide (n = "schema") then Some invoice_schema
             else if decide (n = "language") then Some "eng" else None.

Definition scenario_store : nat -> string -> Outcome string Buffer :=
  fun _ n => if decide (n = "data") then Ok invoice_bytes else Err "no such binary".

(** Specification, scenario 1: one item carrying [invoice.pdf] as [data]. *)
Definition invoice_host : ExecuteFunctions := {|
  inputData := [INodeExecutionData.mk JNull (Some {[ "data" := invoice_pdf ]})];
  credentialStore := scenario_credentials;
  parameterValue := scenario_parameters;
  binaryStore := scenario_store;
  remote := fun _ _ => Ok invoice_response;
|}.

(** Specification, scenario 2: one item with no [data] attachment. *)
Definition missing_host : ExecuteFunctions := {|
  inputData := [INodeExecutionData.mk JNull (Some {[ "image" := invoice_pdf ]})];
  credentialStore := scenario_credentials;
  parameterValue := scenario_parameters;
  binaryStore := scenario_store;
  remote := fun _ _ => Ok invoice_response;
|}.

(** Three items, the second without [data]; the service numbers the
    requests it receives. *)
Definition batch_host : ExecuteFunctions := {|
  inputData := [INodeExecutionData.mk JNull (Some {[ "data" := invoice_pdf ]});
                INodeExecutionData.mk JNull None;
                INodeExecutionData.mk JNull (Some {[ "data" := invoice_pdf ]})];
  credentialStore := scenario_credentials;
  parameterValue := scenario_parameters;
  binaryStore := scenario_store;
  remote := fun sent _ => Ok (JNumber (Z.of_nat (length sent)));
|}.

(** Two items, both with [data], the language of the second set to a
    value that is not among the declared options. *)
Definition pair_host : ExecuteFunctions := {|
  inputData := [INodeExecutionData.mk JNull (Some {[ "data" := invoice_pdf ]});
                INodeExecutionData.mk JNull (Some {[ "data" := invoice_pdf ]})];
  credentialStore := scenario_credentials;
  parameterValue := fun i n =>
    if decide (n = "language") then (if decide (i = 1) then Some "fr" else None)
    else None;
  binaryStore := scenario_store;
  remote := fun sent _ => Ok (JNumber (Z.of_nat (length sent)));
|}.

(** One item whose binary property name is set to ["constructor"]. *)
Definition proto_host : ExecuteFunctions := {|
  inputData := [INodeExecutionData.mk JNull (Some ∅)];
  credentialStore := scenario_credentials;
  parameterValue := fun _ n =>
    if decide (n = "binaryPropertyName") then Some "constructor" else None;
  binaryStore := fun _ _ => Err "binary data not found";
  remote := fun _ _ => Ok invoice_response;
|}.
