(* ===== verification/ExecuteItem.v ===== *)
(** * The body of the loop of [execute]

    [src/nodes/Receiptli/Receiptli.node.ts], lines 65-99: for one input
    item, the three parameter reads, the binary guard and the [throw] of
    line 70, the buffer read, the options of the request, the request and
    the item pushed.  Written in the monad [Exec] of [Workflow], every host
    call in the source's order.  The lemmas [bind_*] run one host call
    symbolically; the theorems show the file options' fallbacks and that
    the guard lets members of [Object.prototype] through. *)

From stdpp Require Import base strings gmap list.
From S2P Require Import Prelude Workflow Credentials NodeDescription Fixtures.

Local Open Scope string_scope.
Local Open Scope exec_scope.

Section ExecuteItem.
Context `{EF : ExecuteFunctions}.

(** [items[i].binary![binaryPropertyName]] after the guard
    [!items[i].binary || !items[i].binary![binaryPropertyName]]: [None]
    exactly when the guard throws.  Any value found is an object, hence
    truthy. *)
Definition item_binary (item : INodeExecutionData.t) (binaryPropertyName : string)
    : option JsProp :=
  match INodeExecutionData.binary item with
  | None => None
  | Some b => js_get b binaryPropertyName
  end.

(** The message of the error thrown when the attachment is missing. *)
Definition no_binary_message (binaryPropertyName : string) : string :=
  "No binary data found on property " +:+ dquote +:+ binaryPropertyName +:+ dquote
    +:+ ". Ensure previous node provides a file.".

(** The options passed to [this.helpers.request]. *)
Definition build_request (baseUrl apiKey : option string) (binaryData : JsProp)
    (fileBuffer : Buffer) (schema language : string) : IRequestOptions.t := {|
  IRequestOptions.method := "POST";
  IRequestOptions.url := js_template baseUrl +:+ "/api/v1/extract-text";
  IRequestOptions.headers := [("Authorization", "Bearer " +:+ js_template apiKey)];
  IRequestOptions.formData := {|
    IRequestOptions.file := {|
      IRequestOptions.value := fileBuffer;
      IRequestOptions.options := {|
        IRequestOptions.filename := js_or (js_fileName binaryData) "document.pdf";
        IRequestOptions.contentType := js_or (js_mimeType binaryData) "application/pdf";
      |};
    |};
    IRequestOptions.schema := schema;
    IRequestOptions.language := language;
  |};
  IRequestOptions.json := true;
  IRequestOptions.timeout := 3600000%Z;
|}.

(** The body of the loop for index [i]. *)
Definition execute_item (items : list INodeExecutionData.t)
    (baseUrl apiKey : option string) (i : nat) : Exec INodeExecutionData.t :=
  let* binaryPropertyName := Receiptli.getNodeParameter "binaryPropertyName" i in
  let* schema := Receiptli.getNodeParameter "schema" i in
  let* language := Receiptli.getNodeParameter "language" i in
  match items !! i with
  | None => st_throw (ItemUndefined i)
  | Some item =>
      match item_binary item binaryPropertyName with
      | None => st_throw (NoBinaryData (no_binary_message binaryPropertyName))
      | Some binaryData =>
          let* fileBuffer := getBinaryDataBuffer i binaryPropertyName in
          let* response :=
            request (build_request baseUrl apiKey binaryData fileBuffer schema language) in
          st_ret (INodeExecutionData.mk response None)
      end
  end.

End ExecuteItem.

(** C12: the file part of the form is named after the attachment's own
    [fileName] whenever that is a non-empty string, and ["document.pdf"]
    otherwise (no [fileName], an empty one, or an attachment inherited
    from [Object.prototype]); likewise it is typed with the attachment's
    own non-empty [mimeType], and ["application/pdf"] otherwise. *)
Theorem build_request_file_options baseUrl apiKey binaryData fileBuffer schema language :
  let opts := IRequestOptions.options (IRequestOptions.file (IRequestOptions.formData
                (build_request baseUrl apiKey binaryData fileBuffer schema language))) in
  (forall b f, binaryData = JsOwn b -> IBinaryData.fileName b = Some f -> f <> "" ->
     IRequestOptions.filename opts = f) /\
  ((forall b f, binaryData = JsOwn b -> IBinaryData.fileName b = Some f -> f = "") ->
     IRequestOptions.filename opts = "document.pdf") /\
  (forall b, binaryData = JsOwn b -> IBinaryData.mimeType b <> "" ->
     IRequestOptions.contentType opts = IBinaryData.mimeType b) /\
  ((forall b, binaryData = JsOwn b -> IBinaryData.mimeType b = "") ->
     IRequestOptions.contentType opts = "application/pdf").
Proof.
  cbv zeta. simpl. split_and!.
  - intros b f -> Hf Hne. simpl. rewrite Hf. unfold js_or. by destruct (String.eqb_spec f "").
  - intros Hnone. destruct binaryData as [b|m]; simpl; [|done].
    destruct (IBinaryData.fileName b) as [f|] eqn:Hf; simpl; [|done].
    by rewrite (Hnone b f eq_refl Hf).
  - intros b -> Hne. simpl. unfold js_or. by destruct (String.eqb_spec (IBinaryData.mimeType b) "").
  - intros Hnone. destruct binaryData as [b|m]; simpl; [|done].
    by rewrite (Hnone b eq_refl).
Qed.

Lemma build_request_file_options_witness :
  IRequestOptions.filename (IRequestOptions.options (IRequestOptions.file (IRequestOptions.formData
    (build_request None None (JsOwn invoice_pdf) invoice_bytes "" "eng")))) = "invoice.pdf".
Proof.
  destruct (build_request_file_options None None (JsOwn invoice_pdf) invoice_bytes "" "eng")
    as (Hown & _ & _ & _).
  apply (Hown invoice_pdf "invoice.pdf"); [reflexivity | reflexivity | discriminate].
Defined.

(** ** Host calls run symbolically *)

Section HostCallRuns.
Context `{EF : ExecuteFunctions}.

(** The value [getNodeParameter] returns, without the log. *)
Definition param_value (name : string) (i : nat) : Outcome NodeError string :=
  match parameterValue i name with
  | Some v => Ok v
  | None =>
      match property_default (INodeTypeDescription.properties Receiptli.description) name with
      | Some d => Ok d
      | None => Err (ParameterNotFound name)
      end
  end.

Definition buffer_value (i : nat) (name : string) : Outcome NodeError Buffer :=
  match binaryStore i name with Ok b => Ok b | Err r => Err (BinaryDataError r) end.

Lemma bind_getNodeParameter {A} name i (k : string -> Exec A) log :
  st_bind (Receiptli.getNodeParameter name i) k log =
  match param_value name i with
  | Ok v => k v (log ++ [CallGetNodeParameter name i])%list
  | Err e => (Err e, (log ++ [CallGetNodeParameter name i])%list)
  end.
Proof.
  unfold Receiptli.getNodeParameter, getNodeParameter, param_value, log_call,
    st_bind, st_ret, st_throw.
  destruct (parameterValue i name); [done|].
  by destruct (property_default _ name).
Qed.

Lemma bind_getBinaryDataBuffer {A} i name (k : Buffer -> Exec A) log :
  st_bind (getBinaryDataBuffer i name) k log =
  match buffer_value i name with
  | Ok b => k b (log ++ [CallGetBinaryDataBuffer i name])%list
  | Err e => (Err e, (log ++ [CallGetBinaryDataBuffer i name])%list)
  end.
Proof.
  unfold getBinaryDataBuffer, buffer_value, log_call, st_bind, st_ret, st_throw.
  by destruct (binaryStore i name).
Qed.

Lemma bind_request {A} o (k : Json -> Exec A) log :
  st_bind (request o) k log =
  match remote (requests_of log) o with
  | Ok r => k r (log ++ [CallRequest o])%list
  | Err why => (Err (RequestFailed why), (log ++ [CallRequest o])%list)
  end.
Proof. unfold request, st_bind. by destruct (remote (requests_of log) o). Qed.

Lemma requests_of_snoc_other log c :
  (forall o, c <> CallRequest o) -> requests_of (log ++ [c])%list = requests_of log.
Proof.
  intros Hc. rewrite requests_of_app. destruct c; simpl; rewrite ?app_nil_r; try done.
  by destruct (Hc options).
Qed.

Lemma requests_of_snoc_request log o :
  requests_of (log ++ [CallRequest o])%list = (requests_of log ++ [o])%list.
Proof. by rewrite requests_of_app. Qed.

End HostCallRuns.

#[export] Hint Rewrite @bind_getNodeParameter @bind_getBinaryDataBuffer @bind_request
  requests_of_app @app_nil_r : n8n_rw.

Section Parameters.
Context `{EF : ExecuteFunctions}.

(** The parameters always resolve: each has a default in the
    description. *)
Lemma param_value_resolved name i :
  name ∈ ["binaryPropertyName"; "schema"; "language"] ->
  param_value name i =
    Ok (match parameterValue i name with
        | Some v => v
        | None => if decide (name = "binaryPropertyName") then "data"
                  else if decide (name = "schema") then "" else "eng"
        end).
Proof.
  unfold param_value. intros Hname. destruct (parameterValue i name); [done|].
  repeat (apply elem_of_cons in Hname as [->|Hname]; [done|]). set_solver.
Qed.
End Parameters.

(** A call made while processing item [i]: a parameter read or a binary
    read for index [i], or a request. *)
Definition item_call (i : nat) (c : HostCall) : Prop :=
  match c with
  | CallGetNodeParameter _ j | CallGetBinaryDataBuffer j _ => j = i
  | CallRequest _ => True
  | _ => False
  end.

Section ItemLog.
Context `{EF : ExecuteFunctions}.

Lemma execute_item_log items baseUrl apiKey i log :
  exists ext, (execute_item items baseUrl apiKey i log).2 = (log ++ ext)%list /\
    Forall (item_call i) ext.
Proof.
  unfold execute_item.
  repeat first
    [ progress (autorewrite with n8n_rw; cbv beta)
    | progress (unfold st_ret, st_throw)
    | case_match ];
    simpl; eexists; (split; [by rewrite <- ?app_assoc | repeat constructor]).
Qed.

End ItemLog.

Section Prototype.
Context `{EF : ExecuteFunctions}.

(** C11: the guard [!items[i].binary![binaryPropertyName]] reads through
    the prototype chain: when the name is a member of [Object.prototype]
    (["constructor"], ["toString"], ...) and the item has no such
    attachment, the guard passes, the node does not raise its
    missing-attachment error, and it goes on to ask the host for the
    bytes of an attachment that does not exist. *)
Theorem execute_item_prototype_member items baseUrl apiKey i item m name log :
  items !! i = Some item -> INodeExecutionData.binary item = Some m -> m !! name = None ->
  name ∈ object_prototype_members -> parameterValue i "binaryPropertyName" = Some name ->
  CallGetBinaryDataBuffer i name ∈ (execute_item items baseUrl apiKey i log).2 /\
  forall msg, (execute_item items baseUrl apiKey i log).1 <> Err (NoBinaryData msg).
Proof.
  intros Hitem Hbin Hm Hproto Hname. unfold execute_item.
  assert (param_value "binaryPropertyName" i = Ok name) as Hn
    by (unfold param_value; by rewrite Hname).
  rewrite bind_getNodeParameter, Hn. cbv beta.
  rewrite bind_getNodeParameter, param_value_resolved by repeat constructor. cbv beta.
  rewrite bind_getNodeParameter, param_value_resolved by repeat constructor. cbv beta.
  rewrite Hitem. unfold item_binary, js_get. rewrite Hbin, Hm, decide_True by done.
  rewrite bind_getBinaryDataBuffer.
  unfold buffer_value. destruct (binaryStore i name); [rewrite bind_request; destruct (remote _ _)|];
    simpl; split; try (intros msg; congruence).
  all: rewrite !elem_of_app, !list_elem_of_singleton; tauto.
Qed.
End Prototype.

(** Evaluate a closed statement about a concrete run. *)
Ltac concrete := vm_compute; reflexivity.

Lemma execute_item_prototype_member_witness :
  CallGetBinaryDataBuffer 0 "constructor"
    ∈ (@execute_item proto_host (@inputData proto_host) None None 0 []).2 /\
  forall msg, (@execute_item proto_host (@inputData proto_host) None None 0 []).1 <> Err (NoBinaryData msg).
Proof.
  apply (execute_item_prototype_member (EF := proto_host) _ _ _ 0
           (INodeExecutionData.mk JNull (Some ∅)) ∅); try concrete.
  vm_compute. left.
Defined.

