(* ===== verification/Contract.v ===== *)
(** * The contract of [execute]

    An abstract account of what [execute] does, written without the monad,
    the log or the loop index: each item has a pure plan ([item_plan]), the
    request it will send or the error that stops the run before sending;
    the plans are served in order by the remote service ([serve]), and the
    run stops at the first plan that fails or the first request the service
    rejects.  [execute_item_view] shows that one pass of the loop body
    implements one step of the contract; the lemmas on [serve] characterise
    its successful and failed runs.  [Execute] lifts this to the whole
    handler. *)

From stdpp Require Import base strings gmap list.
From S2P Require Import Prelude Workflow Credentials NodeDescription ExecuteItem.

Local Open Scope string_scope.
Local Open Scope exec_scope.

Section Contract.
Context `{EF : ExecuteFunctions}.

(** What item [i] will send, or the error that stops the run first. *)
Definition item_plan (items : list INodeExecutionData.t) (baseUrl apiKey : option string)
    (i : nat) : Outcome NodeError IRequestOptions.t :=
  let? binaryPropertyName := param_value "binaryPropertyName" i in
  let? schema := param_value "schema" i in
  let? language := param_value "language" i in
  match items !! i with
  | None => Err (ItemUndefined i)
  | Some item =>
      match item_binary item binaryPropertyName with
      | None => Err (NoBinaryData (no_binary_message binaryPropertyName))
      | Some binaryData =>
          let? fileBuffer := buffer_value i binaryPropertyName in
          Ok (build_request baseUrl apiKey binaryData fileBuffer schema language)
      end
  end.

(** The service handles one plan, given the requests it has received. *)
Definition serve1 (sent : list IRequestOptions.t) (plan : Outcome NodeError IRequestOptions.t)
    : Outcome NodeError Json * list IRequestOptions.t :=
  match plan with
  | Err e => (Err e, sent)
  | Ok r =>
      (match remote sent r with Ok resp => Ok resp | Err why => Err (RequestFailed why) end,
       (sent ++ [r])%list)
  end.

(** The plans served in order, stopping at the first failure. *)
Fixpoint serve (sent : list IRequestOptions.t) (plans : list (Outcome NodeError IRequestOptions.t))
    : Outcome NodeError (list Json) * list IRequestOptions.t :=
  match plans with
  | [] => (Ok [], sent)
  | p :: ps =>
      match serve1 sent p with
      | (Ok resp, sent') =>
          let '(o, sent'') := serve sent' ps in (outcome_map (cons resp) o, sent'')
      | (Err e, sent') => (Err e, sent')
      end
  end.

Definition json_item (r : Json) : INodeExecutionData.t := INodeExecutionData.mk r None.

(** The contract: credentials are fetched once, every item's plan is
    served in order, and the responses form the single output branch. *)
Definition execute_spec : Outcome NodeError (list (list INodeExecutionData.t)) * list IRequestOptions.t :=
  match credentialStore "ReceiptliApi" with
  | None => (Err (CredentialsNotFound "ReceiptliApi"), [])
  | Some c =>
      let plans := item_plan inputData (c !! "baseUrl") (c !! "apiKey") <$> seq 0 (length inputData) in
      let '(o, sent) := serve [] plans in
      (outcome_map (fun rs => [json_item <$> rs]) o, sent)
  end.

(** A run of the monad seen from the contract: its result and the
    requests its log records. *)
Definition view {A} (r : Outcome NodeError A * list HostCall) : Outcome NodeError A * list IRequestOptions.t :=
  (r.1, requests_of r.2).

End Contract.

(** Run the loop body symbolically: rewrite the host call in head
    position, case on its outcome, repeat. *)
Ltac run_item :=
  repeat first
    [ progress (unfold st_ret, st_throw, view, serve1)
    | progress (cbn [outcome_bind fst snd outcome_map requests_of app])
    | progress (autorewrite with n8n_rw)
    | match goal with
      | |- context [match param_value ?n ?i with Ok _ => _ | Err _ => _ end] =>
          destruct (param_value n i)
      | |- context [match buffer_value ?i ?n with Ok _ => _ | Err _ => _ end] =>
          destruct (buffer_value i n)
      | |- context [match remote ?s ?o with Ok _ => _ | Err _ => _ end] =>
          destruct (remote s o)
      | |- context [match ?l !! ?i with Some _ => _ | None => _ end] =>
          destruct (l !! i)
      | |- context [match item_binary ?it ?n with Some _ => _ | None => _ end] =>
          destruct (item_binary it n)
      end ].

Section ItemRefinement.
Context `{EF : ExecuteFunctions}.

(** One pass of the loop body sends what the item's plan says and
    returns the service's answer. *)
Lemma execute_item_view items baseUrl apiKey i log :
  view (execute_item items baseUrl apiKey i log) =
  let '(o, sent) := serve1 (requests_of log) (item_plan items baseUrl apiKey i) in
  (outcome_map json_item o, sent).
Proof.
  unfold execute_item, item_plan. run_item; reflexivity.
Qed.

End ItemRefinement.

(** ** The contract's service of plans *)

Section Serve.
Context `{EF : ExecuteFunctions}.

(** A successful service: every plan was a request, all were sent in
    order, and the [j]-th answer is the service's reply to the [j]-th
    request given the ones before it. *)
Lemma serve_ok sent plans rs sent' :
  serve sent plans = (Ok rs, sent') ->
  exists reqs, plans = Ok <$> reqs /\ sent' = (sent ++ reqs)%list /\
    length rs = length reqs /\
    forall j r resp, reqs !! j = Some r -> rs !! j = Some resp ->
      remote (sent ++ take j reqs)%list r = Ok resp.
Proof.
  revert sent rs. induction plans as [|p plans IH]; intros sent rs Hs.
  - simpl in Hs. simplify_eq. exists []. by rewrite app_nil_r.
  - simpl in Hs. destruct p as [r|e]; simpl in Hs; [|simplify_eq].
    destruct (remote sent r) as [resp|why] eqn:Hr; [|simplify_eq].
    destruct (serve _ plans) as [[rs'|e] s2] eqn:Hp; simpl in Hs; simplify_eq.
    destruct (IH _ _ Hp) as (reqs & -> & -> & Hlen & Hans).
    exists (r :: reqs). split_and!; [done | by rewrite <- app_assoc | simpl; lia |].
    intros [|j] r' resp' Hj Hrj; simplify_eq/=; [by rewrite app_nil_r|].
    rewrite <- (Hans j r' resp') by done. by rewrite <- app_assoc.
Qed.

(** A failed service stops at some plan [k]: the [k] plans before it
    were requests answered successfully, and either plan [k] is the
    error (nothing more is sent) or plan [k]'s request is the one the
    service rejected (it is the last one sent). *)
Lemma serve_err sent plans e sent' :
  serve sent plans = (Err e, sent') ->
  exists k reqs, k < length plans /\ take k plans = Ok <$> reqs /\ length reqs = k /\
    ((plans !! k = Some (Err e) /\ sent' = (sent ++ reqs)%list) \/
     (exists r why, plans !! k = Some (Ok r) /\ remote (sent ++ reqs)%list r = Err why /\
        e = RequestFailed why /\ sent' = (sent ++ reqs ++ [r])%list)).
Proof.
  revert sent. induction plans as [|p plans IH]; intros sent Hs; [done|].
  simpl in Hs. destruct p as [r|e0]; simpl in Hs.
  - destruct (remote sent r) as [resp|why] eqn:Hr.
    + destruct (serve _ plans) as [[rs'|e1] s2] eqn:Hp; simpl in Hs; simplify_eq.
      destruct (IH _ Hp) as (k & reqs & Hk & Htake & Hlen & Hcase).
      exists (S k), (r :: reqs). split_and!; [simpl; lia | by rewrite firstn_cons, Htake | simpl; lia |].
      destruct Hcase as [[? ->]|(r0 & why & ? & ? & ? & ->)]; [left | right; exists r0, why];
        rewrite <- ?app_assoc in *; done.
    + simplify_eq. exists 0, []. split_and!; [simpl; lia | done | done |].
      right. exists r, why. by rewrite !app_nil_r.
  - simplify_eq. exists 0, []. split_and!; [simpl; lia | done | done |].
    left. by rewrite app_nil_r.
Qed.

(** The [j]-th request sent is the request of plan [j]. *)
Lemma serve_sent sent plans :
  exists reqs, (serve sent plans).2 = (sent ++ reqs)%list /\
    forall j r, reqs !! j = Some r -> plans !! j = Some (Ok r).
Proof.
  revert sent. induction plans as [|p plans IH]; intros sent.
  - exists []. simpl. by rewrite app_nil_r.
  - simpl. destruct p as [r|e]; simpl.
    + destruct (remote sent r); simpl.
      * destruct (IH (sent ++ [r])%list) as (reqs & Hs & Hin).
        destruct (serve _ plans) as [o s2]; simpl in *.
        exists (r :: reqs). rewrite Hs, <- app_assoc. split; [done|].
        intros [|j] r'; simpl; [congruence | apply Hin].
      * exists [r]. split; [done|]. intros [|j] r'; simpl; [congruence | done].
    + exists []. by rewrite app_nil_r.
Qed.

(** If every plan is a request and the service accepts every request,
    the service succeeds. *)
Lemma serve_complete sent plans :
  (forall p, p ∈ plans -> is_ok p) ->
  (forall s r, is_ok (remote s r)) ->
  exists rs, (serve sent plans).1 = Ok rs /\ length rs = length plans.
Proof.
  intros Hp Hr. revert sent. induction plans as [|p plans IH]; intros sent; [by exists []|].
  assert (is_ok p) as Hok by (apply Hp; left).
  destruct p as [r|e]; [|done]. simpl.
  specialize (Hr sent r). destruct (remote sent r) as [resp|why]; [|done].
  destruct IH with (sent := (sent ++ [r])%list) as (rs & Hrs & Hlen).
  { intros p' Hp'. apply Hp. by right. }
  destruct (serve _ plans) as [o s2]. simpl in *. subst. exists (resp :: rs). simpl. auto.
Qed.
End Serve.

(** ** Plans of items *)

Section Plans.
Context `{EF : ExecuteFunctions}.

(** A plan that is a request was built from the item's three parameters,
    its attachment and the attachment's bytes. *)
Lemma item_plan_ok items baseUrl apiKey i r :
  item_plan items baseUrl apiKey i = Ok r ->
  exists name schema language item binaryData buf,
    param_value "binaryPropertyName" i = Ok name /\ param_value "schema" i = Ok schema /\
    param_value "language" i = Ok language /\ items !! i = Some item /\
    item_binary item name = Some binaryData /\ buffer_value i name = Ok buf /\
    r = build_request baseUrl apiKey binaryData buf schema language.
Proof.
  unfold item_plan, outcome_bind. intros H. repeat case_match; simplify_eq; eauto 20.
Qed.

(** An item whose attachment is missing has a plan that fails. *)
Lemma item_plan_missing_binary items baseUrl apiKey i item name :
  items !! i = Some item -> param_value "binaryPropertyName" i = Ok name ->
  item_binary item name = None -> is_ok (item_plan items baseUrl apiKey i) = false.
Proof.
  intros Hi Hn Hb. destruct (item_plan _ _ _ _) as [r|] eqn:Hp; [|done].
  destruct (item_plan_ok _ _ _ _ _ Hp) as (? & ? & ? & ? & ? & ? & Hn' & _ & _ & Hi' & Hb' & _).
  simplify_eq. congruence.
Qed.

Lemma lookup_item_plans items baseUrl apiKey n j p :
  (item_plan items baseUrl apiKey <$> seq 0 n) !! j = Some p ->
  j < n /\ p = item_plan items baseUrl apiKey j.
Proof.
  rewrite list_lookup_fmap. intros Hj.
  destruct (seq 0 n !! j) as [x|] eqn:Hx; simplify_eq/=.
  apply lookup_seq in Hx as [-> ?]. done.
Qed.

End Plans.
