(* ===== verification/Execute.v ===== *)
(** * The method [execute] of the node [Receiptli]

    [src/nodes/Receiptli/Receiptli.node.ts], lines 57-102, in the monad
    [Exec] of [Workflow]: the input read, the credential read, the [for]
    loop of line 64 as [for_items], a [Fixpoint] whose fuel [execute] sets
    to [length items] ([for_items_fuel_enough] shows that fuel is never
    what stops the loop), and the single output branch.  The refinement
    [execute_refines_spec] shows that [execute] implements the contract of
    [Contract]; the properties of its runs follow from it. *)

From stdpp Require Import base strings gmap list.
From S2P Require Import Prelude Workflow Credentials NodeDescription Fixtures ExecuteItem Contract.

Local Open Scope string_scope.
Local Open Scope exec_scope.

Section Execute.
Context `{EF : ExecuteFunctions}.

(** [for (let i = 0; i < items.length; i++) { ...; returnData.push(...) }]
    from index [i] with the items pushed so far. *)
Fixpoint for_items (fuel : nat) (items : list INodeExecutionData.t)
    (baseUrl apiKey : option string) (i : nat)
    (returnData : list INodeExecutionData.t) : Exec (list INodeExecutionData.t) :=
  match fuel with
  | O => st_ret returnData
  | S fuel' =>
      if decide (i < length items) then
        let* d := execute_item items baseUrl apiKey i in
        for_items fuel' items baseUrl apiKey (S i) (returnData ++ [d])%list
      else st_ret returnData
  end.

Definition execute : Exec (list (list INodeExecutionData.t)) :=
  let* items := getInputData in
  let* credentials := getCredentials "ReceiptliApi" in
  let baseUrl := credentials !! "baseUrl" in
  let apiKey := credentials !! "apiKey" in
  let* returnData := for_items (length items) items baseUrl apiKey 0 [] in
  st_ret [returnData].

End Execute.

Section Termination.
Context `{EF : ExecuteFunctions}.

(** C8: the loop [for (let i = 0; i < items.length; i++)] stops by its own
    condition: with any fuel at least the number of remaining items it
    runs exactly as with that number, so the fuel [length items] that
    [execute] gives it never cuts the loop short. *)
Theorem for_items_fuel_enough fuel items baseUrl apiKey i returnData :
  length items - i <= fuel ->
  for_items fuel items baseUrl apiKey i returnData
    ≡ for_items (length items - i) items baseUrl apiKey i returnData.
Proof.
  revert i returnData. induction fuel as [|fuel IH]; intros i returnData Hfuel.
  - by replace (length items - i) with 0 by lia.
  - destruct (decide (i < length items)) as [Hi|Hi].
    + replace (length items - i) with (S (length items - S i)) by lia.
      cbn [for_items]. rewrite !decide_True by done.
      setoid_rewrite IH; [reflexivity | lia].
    + replace (length items - i) with 0 by lia.
      cbn [for_items]. by rewrite decide_False.
Qed.
End Termination.

Section LoopRefinement.
Context `{EF : ExecuteFunctions}.

(** The loop from index [i], with exactly the remaining items as fuel,
    serves the plans of items [i .. length items - 1] in order and
    appends the answers to what was pushed before. *)
Lemma for_items_view items baseUrl apiKey n i acc log :
  i + n = length items ->
  view (for_items n items baseUrl apiKey i acc log) =
  let '(o, sent) := serve (requests_of log) (item_plan items baseUrl apiKey <$> seq i n) in
  (outcome_map (fun rs => acc ++ (json_item <$> rs)) o, sent)%list.
Proof.
  revert i acc log. induction n as [|n IH]; intros i acc log Hlen.
  - simpl. by rewrite app_nil_r.
  - cbn [for_items]. rewrite decide_True by lia. unfold st_bind at 1.
    pose proof (execute_item_view items baseUrl apiKey i log) as Hi.
    cbn [seq fmap list_fmap serve].
    destruct (execute_item items baseUrl apiKey i log) as [[d|e] log1].
    all: destruct (serve1 (requests_of log) (item_plan items baseUrl apiKey i))
           as [[r|e'] sent1]; unfold view in Hi; simpl in Hi; simplify_eq; try done.
    rewrite IH by lia. destruct (serve _ _) as [o sent2]. destruct o; simpl; [|done].
    by rewrite <- app_assoc.
Qed.
End LoopRefinement.

Section Execute_refinement.
Context `{EF : ExecuteFunctions}.

(** [execute] against the contract, as a lemma the other proofs use. *)
Lemma execute_view : view (execute []) = execute_spec.
Proof.
  unfold execute, execute_spec, getInputData, getCredentials, log_call, st_bind, st_ret, st_throw.
  cbn -[for_items serve].
  destruct (credentialStore "ReceiptliApi") as [c|]; [|done].
  pose proof (for_items_view inputData (c !! "baseUrl") (c !! "apiKey") (length inputData) 0 []
                [CallGetInputData; CallGetCredentials "ReceiptliApi"] eq_refl) as Hv.
  unfold view in Hv |- *. cbn -[for_items serve] in Hv.
  destruct (for_items _ _ _ _ _ _ _) as [[rd|e] log'].
  all: destruct (serve [] _) as [[rs|e'] sent]; simpl in Hv; simplify_eq; done.
Qed.

(** C1: [execute], started on an empty log, returns what the contract
    returns and makes exactly the requests the contract sends, in the
    same order. *)
Theorem execute_refines_spec : view (execute []) = execute_spec.
Proof. apply execute_view. Qed.
End Execute_refinement.

(** ** Properties of the runs of [execute] *)

Section Properties.
Context `{EF : ExecuteFunctions}.

Lemma execute_run_spec o log :
  execute [] = (o, log) -> (o, requests_of log) = execute_spec.
Proof. intros H. rewrite <- execute_view. unfold view. by rewrite H. Qed.

(** The requests of a run whose credentials were found, as the
    contract's service of the items' plans. *)
Lemma execute_run_serve o log :
  execute [] = (o, log) ->
  (credentialStore "ReceiptliApi" = None /\ o = Err (CredentialsNotFound "ReceiptliApi") /\
     requests_of log = []) \/
  exists c, credentialStore "ReceiptliApi" = Some c /\
    let '(o', sent) := serve [] (item_plan inputData (c !! "baseUrl") (c !! "apiKey")
                                   <$> seq 0 (length inputData)) in
    o = outcome_map (fun rs => [json_item <$> rs]) o' /\ requests_of log = sent.
Proof.
  intros H%execute_run_spec. unfold execute_spec in H.
  destruct (credentialStore "ReceiptliApi") as [c|]; [right | left; by simplify_eq].
  exists c. split; [done|]. destruct (serve [] _). by simplify_eq.
Qed.

(** The [i]-th request of a run is item [i]'s plan. *)
Lemma run_request_planned o log i r :
  execute [] = (o, log) -> requests_of log !! i = Some r ->
  exists c, credentialStore "ReceiptliApi" = Some c /\ i < length inputData /\
    item_plan inputData (c !! "baseUrl") (c !! "apiKey") i = Ok r.
Proof.
  intros [(_ & _ & ->)|(c & Hc & Hrun)]%execute_run_serve Hi; [done|].
  destruct (serve_sent [] (item_plan inputData (c !! "baseUrl") (c !! "apiKey")
                             <$> seq 0 (length inputData))) as (reqs & Hs & Hpos).
  destruct (serve _ _) as [o' sent] eqn:Hserve. simpl in Hs. destruct Hrun as [_ Hlog].
  subst. apply Hpos, lookup_item_plans in Hi as [? Hp]. eauto.
Qed.

(** C5: one POST per item, in item order: the [i]-th request a run
    makes is the request planned for input item [i], built from the
    credentials the host holds. *)
Theorem execute_requests_in_item_order o log i r :
  execute [] = (o, log) -> requests_of log !! i = Some r ->
  exists c, credentialStore "ReceiptliApi" = Some c /\ i < length inputData /\
    item_plan inputData (c !! "baseUrl") (c !! "apiKey") i = Ok r.
Proof. apply run_request_planned. Qed.

(** The shape of a successful run. *)
Lemma run_success outs log :
  execute [] = (Ok outs, log) ->
  exists c rs, credentialStore "ReceiptliApi" = Some c /\
    outs = [json_item <$> rs] /\ length rs = length inputData /\
    length (requests_of log) = length inputData /\
    forall i r resp, requests_of log !! i = Some r -> rs !! i = Some resp ->
      item_plan inputData (c !! "baseUrl") (c !! "apiKey") i = Ok r /\
      remote (take i (requests_of log)) r = Ok resp.
Proof.
  intros [(_ & ? & _)|(c & Hc & Hrun)]%execute_run_serve; [done|].
  destruct (serve _ _) as [o' sent] eqn:Hserve. destruct Hrun as [Ho ->].
  destruct o' as [rs|]; simplify_eq/=.
  destruct (serve_ok _ _ _ _ Hserve) as (reqs & Hplans & -> & Hlen & Hans).
  simpl in *.
  assert (length reqs = length inputData) as Hn.
  { by rewrite <- (length_fmap (@Ok NodeError _) reqs), <- Hplans, length_fmap, length_seq. }
  exists c, rs. split_and!; [done | done | lia | done |].
  intros i r resp Hr Hresp. split; [|by apply Hans].
  assert ((item_plan inputData (c !! "baseUrl") (c !! "apiKey") <$> seq 0 (length inputData))
            !! i = Some (Ok r)) as Hi by (rewrite Hplans, list_lookup_fmap, Hr; done).
  by apply lookup_item_plans in Hi as [_ <-].
Qed.

(** C2: a successful run returns one output branch with one item per
    input item; the [i]-th output is [{ json: resp }] where [resp] is the
    service's answer to the [i]-th request, which is input item [i]'s
    planned request, given the requests made before it. *)
Theorem execute_success outs log :
  execute [] = (Ok outs, log) ->
  exists c rs, credentialStore "ReceiptliApi" = Some c /\
    outs = [json_item <$> rs] /\ length rs = length inputData /\
    length (requests_of log) = length inputData /\
    forall i r resp, requests_of log !! i = Some r -> rs !! i = Some resp ->
      item_plan inputData (c !! "baseUrl") (c !! "apiKey") i = Ok r /\
      remote (take i (requests_of log)) r = Ok resp.
Proof. apply run_success. Qed.

(** The shape of a failed run. *)
Lemma run_failure e log :
  execute [] = (Err e, log) ->
  (credentialStore "ReceiptliApi" = None /\ e = CredentialsNotFound "ReceiptliApi" /\
     requests_of log = []) \/
  exists c k, credentialStore "ReceiptliApi" = Some c /\ k < length inputData /\
    (forall j, j < k -> exists r, requests_of log !! j = Some r /\
        item_plan inputData (c !! "baseUrl") (c !! "apiKey") j = Ok r) /\
    ((item_plan inputData (c !! "baseUrl") (c !! "apiKey") k = Err e /\
        length (requests_of log) = k) \/
     (exists r why, item_plan inputData (c !! "baseUrl") (c !! "apiKey") k = Ok r /\
        e = RequestFailed why /\ requests_of log = (take k (requests_of log) ++ [r])%list /\
        remote (take k (requests_of log)) r = Err why)).
Proof.
  intros [(? & ? & ?)|(c & Hc & Hrun)]%execute_run_serve; [left; by simplify_eq|right].
  destruct (serve _ _) as [o' sent] eqn:Hserve. destruct Hrun as [Ho ->].
  destruct o' as [|e']; simplify_eq/=.
  destruct (serve_err _ _ _ _ Hserve) as (k & reqs & Hk & Htake & Hlen & Hcase).
  simpl in *.
  rewrite length_fmap, length_seq in Hk. exists c, k. split_and!; [done | done | |].
  - intros j Hj.
    assert (is_Some (reqs !! j)) as [r Hr] by (apply lookup_lt_is_Some; lia).
    exists r. split.
    + destruct Hcase as [[_ ->]|(? & ? & _ & _ & _ & ->)]; simpl;
        [|rewrite lookup_app_l by lia]; done.
    + assert (take k (item_plan inputData (c !! "baseUrl") (c !! "apiKey")
                        <$> seq 0 (length inputData)) !! j = Some (Ok r)) as Hj'
        by (rewrite Htake, list_lookup_fmap, Hr; done).
      rewrite lookup_take_lt in Hj' by lia. by apply lookup_item_plans in Hj' as [_ <-].
  - destruct Hcase as [[Hk' ->]|(r & why & Hk' & Hwhy & -> & ->)];
      apply lookup_item_plans in Hk' as [_ Hk']; simpl.
    + left. by rewrite <- Hk'.
    + right. exists r, why. rewrite take_app_length' by lia. by rewrite <- Hk'.
Qed.

(** C6: a failed run stopped at the first failing step: either the
    credentials were missing and nothing was requested, or there is an
    item [k] such that the items before it were each requested with
    their planned request, and either item [k]'s plan is the error (no
    request for [k] or later), or item [k]'s request was made and is the
    one the service rejected (the last request of the run). *)
Theorem execute_failure e log :
  execute [] = (Err e, log) ->
  (credentialStore "ReceiptliApi" = None /\ e = CredentialsNotFound "ReceiptliApi" /\
     requests_of log = []) \/
  exists c k, credentialStore "ReceiptliApi" = Some c /\ k < length inputData /\
    (forall j, j < k -> exists r, requests_of log !! j = Some r /\
        item_plan inputData (c !! "baseUrl") (c !! "apiKey") j = Ok r) /\
    ((item_plan inputData (c !! "baseUrl") (c !! "apiKey") k = Err e /\
        length (requests_of log) = k) \/
     (exists r why, item_plan inputData (c !! "baseUrl") (c !! "apiKey") k = Ok r /\
        e = RequestFailed why /\ requests_of log = (take k (requests_of log) ++ [r])%list /\
        remote (take k (requests_of log)) r = Err why)).
Proof. apply run_failure. Qed.

(** C3: if input item [k] lacks the attachment its [binaryPropertyName]
    names, the run produces no output, and no request is made for item
    [k] or any later item: at most [k] requests are made. *)
Theorem execute_missing_binary k item name o log :
  execute [] = (o, log) ->
  inputData !! k = Some item -> param_value "binaryPropertyName" k = Ok name ->
  item_binary item name = None ->
  is_ok o = false /\ length (requests_of log) <= k.
Proof.
  intros Hrun Hk Hn Hb.
  assert (forall c : gmap string string,
            is_ok (item_plan inputData (c !! "baseUrl") (c !! "apiKey") k) = false)
    as Hp by (intros c; by eapply item_plan_missing_binary).
  assert (k < length inputData) by (by eapply lookup_lt_Some).
  destruct o as [outs|e].
  - destruct (run_success _ _ Hrun) as (c & rs & _ & _ & Hlen & Hreq & Hans).
    assert (is_Some (requests_of log !! k)) as [r Hr] by (apply lookup_lt_is_Some; lia).
    assert (is_Some (rs !! k)) as [resp Hresp] by (apply lookup_lt_is_Some; lia).
    destruct (Hans _ _ _ Hr Hresp) as [Hplan _]. specialize (Hp c). by rewrite Hplan in Hp.
  - split; [done|].
    destruct (run_failure _ _ Hrun) as [(_ & _ & ->)|(c & k' & _ & Hk' & Hbefore & Hcase)];
      [simpl; lia|].
    assert (k' <= k).
    { destruct (decide (k' <= k)); [done|].
      destruct (Hbefore k) as (r & _ & Hr); [lia|]. specialize (Hp c). by rewrite Hr in Hp. }
    destruct Hcase as [[_ ->]|(r & why & Hr & _ & Hlog & _)]; [done|].
    assert (k' <> k) by (intros ->; specialize (Hp c); by rewrite Hr in Hp).
    rewrite Hlog, length_app, length_take. simpl. lia.
Qed.

(** C7: the run completes: when the credentials are stored, every item's
    plan is a request and the service accepts every request, the run
    returns one output item per input item. *)
Theorem execute_complete c :
  credentialStore "ReceiptliApi" = Some c ->
  (forall i, i < length inputData ->
     is_ok (item_plan inputData (c !! "baseUrl") (c !! "apiKey") i)) ->
  (forall sent r, is_ok (remote sent r)) ->
  exists outs, (execute []).1 = Ok [outs] /\ length outs = length inputData.
Proof.
  intros Hc Hplans Hremote.
  pose proof execute_view as Hspec. unfold view, execute_spec in Hspec. rewrite Hc in Hspec.
  destruct (serve_complete [] (item_plan inputData (c !! "baseUrl") (c !! "apiKey")
                                 <$> seq 0 (length inputData))) as (rs & Hrs & Hlen).
  { intros p Hp. apply list_elem_of_lookup in Hp as [j Hj].
    apply lookup_item_plans in Hj as [? ->]. by apply Hplans. }
  { done. }
  destruct (serve _ _) as [o sent]. simpl in Hrs. subst o.
  injection Hspec as Ho _. rewrite Ho. eexists. split; [done|].
  by rewrite length_fmap, Hlen, length_fmap, length_seq.
Qed.

(** The fixed fields of every request of a run. *)
Lemma run_request_authorized o log r :
  execute [] = (o, log) -> r ∈ requests_of log ->
  exists c, credentialStore "ReceiptliApi" = Some c /\
    IRequestOptions.headers r = [("Authorization", "Bearer " +:+ js_template (c !! "apiKey"))] /\
    IRequestOptions.url r = js_template (c !! "baseUrl") +:+ "/api/v1/extract-text" /\
    IRequestOptions.method r = "POST" /\ IRequestOptions.json r = true /\
    IRequestOptions.timeout r = 3600000%Z /\ (0 < IRequestOptions.timeout r <= 2^31 - 1)%Z.
Proof.
  intros Hrun [i Hi]%list_elem_of_lookup.
  destruct (run_request_planned _ _ _ _ Hrun Hi) as (c & Hc & _ & Hp).
  destruct (item_plan_ok _ _ _ _ _ Hp) as (? & ? & ? & ? & ? & ? & _ & _ & _ & _ & _ & _ & ->).
  exists c. split_and!; simpl; try done; lia.
Qed.

(** C4: every request a run makes, whether the run succeeds or fails,
    is a POST to [{baseUrl}/api/v1/extract-text] with the single header
    [Authorization: Bearer {apiKey}] taken verbatim from the stored
    credentials (an absent field prints as [undefined]), asks for a JSON
    response, and has a timeout of one hour, which is within the
    [2^31 - 1] ms that a Node.js timer accepts. *)
Theorem execute_requests_authorized o log r :
  execute [] = (o, log) -> r ∈ requests_of log ->
  exists c, credentialStore "ReceiptliApi" = Some c /\
    IRequestOptions.headers r = [("Authorization", "Bearer " +:+ js_template (c !! "apiKey"))] /\
    IRequestOptions.url r = js_template (c !! "baseUrl") +:+ "/api/v1/extract-text" /\
    IRequestOptions.method r = "POST" /\ IRequestOptions.json r = true /\
    IRequestOptions.timeout r = 3600000%Z /\ (0 < IRequestOptions.timeout r <= 2^31 - 1)%Z.
Proof. apply run_request_authorized. Qed.

(** C9: the form of the [i]-th request carries input item [i]'s
    attachment under the property its [binaryPropertyName] names
    (default [data]): the bytes the binary store holds for it, its file
    name or ["document.pdf"], its MIME type or ["application/pdf"] (an
    empty value also falls back); and the item's [schema] (default empty)
    and [language] (default [eng]) as set, unchecked against the
    declared options. *)
Theorem execute_request_form o log i r :
  execute [] = (o, log) -> requests_of log !! i = Some r ->
  let name := default "data" (parameterValue i "binaryPropertyName") in
  let form := IRequestOptions.formData r in
  exists item binaryData,
    inputData !! i = Some item /\ item_binary item name = Some binaryData /\
    binaryStore i name = Ok (IRequestOptions.value (IRequestOptions.file form)) /\
    IRequestOptions.filename (IRequestOptions.options (IRequestOptions.file form)) =
      js_or (js_fileName binaryData) "document.pdf" /\
    IRequestOptions.contentType (IRequestOptions.options (IRequestOptions.file form)) =
      js_or (js_mimeType binaryData) "application/pdf" /\
    IRequestOptions.schema form = default "" (parameterValue i "schema") /\
    IRequestOptions.language form = default "eng" (parameterValue i "language").
Proof.
  intros Hrun Hi. destruct (run_request_planned _ _ _ _ Hrun Hi) as (c & _ & _ & Hp).
  destruct (item_plan_ok _ _ _ _ _ Hp)
    as (name & schema & language & item & bd & buf & Hn & Hs & Hl & Hitem & Hb & Hbuf & ->).
  rewrite param_value_resolved in Hn, Hs, Hl by repeat constructor. simplify_eq.
  unfold buffer_value in Hbuf. exists item, bd. simpl.
  split_and!; try done. unfold default. destruct (binaryStore _ _); by simplify_eq.
Qed.

End Properties.

(** ** The order of host calls *)

Section CallOrder.
Context `{EF : ExecuteFunctions}.

Lemma for_items_log n items baseUrl apiKey i acc log :
  exists blocks,
    (for_items n items baseUrl apiKey i acc log).2 = (log ++ concat blocks)%list /\
    length blocks <= n /\
    forall j blk, blocks !! j = Some blk -> Forall (item_call (i + j)) blk.
Proof.
  revert i acc log. induction n as [|n IH]; intros i acc log; simpl.
  { exists []. rewrite app_nil_r. split_and!; [done | simpl; lia | by intros ?? Hj]. }
  case_decide; [|exists []; rewrite app_nil_r; split_and!; [done | simpl; lia | by intros ?? Hj]].
  unfold st_bind. destruct (execute_item_log items baseUrl apiKey i log) as (ext & Hext & Hall).
  destruct (execute_item items baseUrl apiKey i log) as [[d|e] log1]; simpl in Hext; subst log1.
  - destruct (IH (S i) (acc ++ [d])%list (log ++ ext)%list) as (blocks & Hb & Hlen & Hcalls).
    exists (ext :: blocks). rewrite Hb, <- app_assoc. split_and!; [done | simpl; lia |].
    intros [|j] blk Hj; simplify_eq/=; [by rewrite Nat.add_0_r|].
    rewrite <- Nat.add_succ_comm. by apply Hcalls.
  - exists [ext]. simpl. rewrite app_nil_r. split_and!; [done | lia |].
    intros [|j] blk Hj; simplify_eq/=. by rewrite Nat.add_0_r.
Qed.

(** C10: items are processed strictly one after the other: a run's log is
    the input read, one read of the credentials under the credential
    type's name (which the description declares as required), then one
    block of calls per processed item, in item order, each block made
    only of that item's parameter and binary reads and its request. *)
Theorem execute_log_sequential o log :
  execute [] = (o, log) ->
  exists blocks,
    log = ([CallGetInputData; CallGetCredentials (ICredentialType.name ReceiptliApi.credential)]
             ++ concat blocks)%list /\
    length blocks <= length inputData /\
    (forall j blk, blocks !! j = Some blk -> Forall (item_call j) blk) /\
    INodeCredentialDescription.mk (ICredentialType.name ReceiptliApi.credential) true
      ∈ INodeTypeDescription.credentials Receiptli.description.
Proof.
  unfold execute, getInputData, getCredentials, log_call, st_bind, st_ret, st_throw.
  cbn -[for_items]. intros Hrun.
  assert (INodeCredentialDescription.mk (ICredentialType.name ReceiptliApi.credential) true
            ∈ INodeTypeDescription.credentials Receiptli.description) by (simpl; left).
  destruct (credentialStore "ReceiptliApi") as [c|].
  - destruct (for_items_log (length inputData) inputData (c !! "baseUrl") (c !! "apiKey") 0 []
                [CallGetInputData; CallGetCredentials "ReceiptliApi"]) as (blocks & Hb & Hlen & Hc).
    destruct (for_items _ _ _ _ _ _ _) as [[rd|e] log']; simpl in Hb; simplify_eq;
      exists blocks; split_and!; done.
  - simplify_eq. exists []. split_and!; simpl; [done | lia | by intros ?? Hj | done].
Qed.
End CallOrder.

(** ** The scenarios of the specification *)

Local Open Scope Z_scope.

(** Specification, scenario 1, evaluated: one item carrying [invoice.pdf] as
    [data], schema [{"total": "number"}], language [eng], credentials
    [k1] and [http://localhost:3000]: exactly one POST, to
    [http://localhost:3000/api/v1/extract-text], with [Authorization:
    Bearer k1], the file's bytes, name and type, the schema and the
    language; the output is the service's JSON as the only item. *)
Example spec_scenario_invoice :
  @execute invoice_host [] =
  (Ok [[json_item invoice_response]],
   [CallGetInputData; CallGetCredentials "ReceiptliApi";
    CallGetNodeParameter "binaryPropertyName" 0; CallGetNodeParameter "schema" 0;
    CallGetNodeParameter "language" 0; CallGetBinaryDataBuffer 0 "data";
    CallRequest
      (IRequestOptions.mk "POST" "http://localhost:3000/api/v1/extract-text"
         [("Authorization", "Bearer k1")]
         (IRequestOptions.mk_form_data
            (IRequestOptions.mk_form_file invoice_bytes
               (IRequestOptions.mk_file_options "invoice.pdf" "application/pdf"))
            invoice_schema "eng")
         true 3600000)])%list.
Proof. vm_compute. reflexivity. Qed.

(** Specification, scenario 2, evaluated: an item without the [data] attachment
    fails with the missing-attachment error naming [data], before any
    binary read or HTTP call. *)
Example spec_scenario_missing_data :
  @execute missing_host [] =
  (Err (NoBinaryData (no_binary_message "data")),
   [CallGetInputData; CallGetCredentials "ReceiptliApi";
    CallGetNodeParameter "binaryPropertyName" 0; CallGetNodeParameter "schema" 0;
    CallGetNodeParameter "language" 0])%list.
Proof. vm_compute. reflexivity. Qed.

Local Close Scope Z_scope.

(** ** Witnesses: the theorems applied to concrete hosts *)

Lemma execute_requests_in_item_order_witness :
  let run := @execute pair_host [] in
  exists c, @credentialStore pair_host "ReceiptliApi" = Some c /\ 1 < length (@inputData pair_host) /\
    @item_plan pair_host (@inputData pair_host) (c !! "baseUrl") (c !! "apiKey") 1 =
      Ok (default empty_request (requests_of run.2 !! 1)).
Proof.
  cbv zeta.
  apply (execute_requests_in_item_order (@execute pair_host []).1 (@execute pair_host []).2 1);
    concrete.
Defined.

Lemma execute_success_witness :
  let run := @execute pair_host [] in
  run = (Ok (ok_value [] run.1), run.2) /\ length (requests_of run.2) = length (@inputData pair_host).
Proof.
  cbv zeta.
  assert (@execute pair_host [] = (Ok (ok_value [] (@execute pair_host []).1), (@execute pair_host []).2))
    as Hrun by concrete.
  split; [exact Hrun|].
  by destruct (execute_success _ _ Hrun) as (c & rs & _ & _ & _ & Hlen & _).
Defined.

Lemma execute_failure_witness :
  let run := @execute batch_host [] in
  run = (Err (NoBinaryData (no_binary_message "data")), run.2) /\
  length (requests_of run.2) <= length (@inputData batch_host).
Proof.
  cbv zeta.
  assert (@execute batch_host [] = (Err (NoBinaryData (no_binary_message "data")), (@execute batch_host []).2))
    as Hrun by concrete.
  split; [exact Hrun|].
  destruct (execute_failure _ _ Hrun)
    as [(_ & _ & ->)|(c & k & _ & Hk & _ & [[_ ->]|(r & why & _ & _ & Hlog & _)])]; simpl in *; [lia | lia |].
  rewrite Hlog, length_app, length_take. simpl. lia.
Defined.

Lemma execute_missing_binary_witness :
  let run := @execute batch_host [] in
  run = (run.1, run.2) /\ (@inputData batch_host) !! 1 = Some (INodeExecutionData.mk JNull None) /\
  @param_value batch_host "binaryPropertyName" 1 = Ok "data" /\
  item_binary (INodeExecutionData.mk JNull None) "data" = None /\
  is_ok run.1 = false /\ length (requests_of run.2) <= 1.
Proof.
  cbv zeta.
  assert (@execute batch_host [] = ((@execute batch_host []).1, (@execute batch_host []).2))
    as Hrun by concrete.
  assert ((@inputData batch_host) !! 1 = Some (INodeExecutionData.mk JNull None)) as Hk by concrete.
  assert (@param_value batch_host "binaryPropertyName" 1 = Ok "data") as Hn by concrete.
  assert (item_binary (INodeExecutionData.mk JNull None) "data" = None) as Hb by concrete.
  destruct (execute_missing_binary _ _ _ _ _ Hrun Hk Hn Hb). by split_and!.
Defined.

Lemma execute_complete_witness :
  exists outs, (@execute invoice_host []).1 = Ok [outs] /\ length outs = length (@inputData invoice_host).
Proof.
  apply (@execute_complete invoice_host
           (<["apiKey" := "k1"]> {[ "baseUrl" := "http://localhost:3000" ]})); [concrete | |].
  - intros [|i] Hi; [concrete | simpl in Hi; lia].
  - intros sent r. reflexivity.
Defined.

Lemma execute_requests_authorized_witness :
  let run := @execute invoice_host [] in
  let r := default empty_request (requests_of run.2 !! 0) in
  r ∈ requests_of run.2 /\ IRequestOptions.headers r = [("Authorization", "Bearer k1")] /\
  IRequestOptions.url r = "http://localhost:3000/api/v1/extract-text".
Proof.
  cbv zeta.
  assert (default empty_request (requests_of (@execute invoice_host []).2 !! 0)
            ∈ requests_of (@execute invoice_host []).2) as Hin by (vm_compute; left).
  split; [exact Hin|].
  destruct (execute_requests_authorized (@execute invoice_host []).1 (@execute invoice_host []).2 _
              (surjective_pairing _) Hin) as (c & Hc & Hh & Hu & _).
  vm_compute in Hc. simplify_eq. rewrite Hh, Hu. split; concrete.
Defined.

Lemma execute_request_form_witness :
  let run := @execute pair_host [] in
  let r := default empty_request (requests_of run.2 !! 1) in
  IRequestOptions.language (IRequestOptions.formData r) = "fr" /\
  IRequestOptions.schema (IRequestOptions.formData r) = "".
Proof.
  cbv zeta.
  assert (requests_of (@execute pair_host []).2 !! 1 =
            Some (default empty_request (requests_of (@execute pair_host []).2 !! 1))) as Hi by concrete.
  destruct (execute_request_form _ _ _ _ (surjective_pairing _) Hi)
    as (item & bd & _ & _ & _ & _ & _ & Hs & Hl).
  cbv zeta. rewrite Hs, Hl. split; concrete.
Defined.

Lemma execute_log_sequential_witness :
  let run := @execute batch_host [] in
  exists blocks, run.2 = ([CallGetInputData; CallGetCredentials "ReceiptliApi"] ++ concat blocks)%list /\
    length blocks <= 3.
Proof.
  cbv zeta.
  destruct (execute_log_sequential (EF := batch_host) _ _ (surjective_pairing _))
    as (blocks & Hlog & Hlen & _ & _).
  exists blocks. split; [exact Hlog | exact Hlen].
Defined.

Lemma for_items_fuel_enough_witness :
  length (@inputData invoice_host) - 0 <= 3 /\
  @for_items invoice_host 3 (@inputData invoice_host) None None 0 []
    ≡ @for_items invoice_host (length (@inputData invoice_host) - 0) (@inputData invoice_host)
        None None 0 [].
Proof. split; [simpl; lia | apply for_items_fuel_enough; simpl; lia]. Defined.
